(** * Orcas History image downloader: [extraction/download_images.py]

    A shallow embedding of [download_batch] and [main] and the proofs of
    the properties its specification states.

    The program talks to three things outside itself: the HTTP client
    ([urllib.request]), the file system ([Path.write_bytes]) and standard
    output.  They are modelled by an environment [Env] that answers every
    library call, given the calls made so far, either with a value or with
    the message of the exception it raises; the program is a computation in
    a state-and-exception monad over a [state] holding the [results]
    dictionary, the log of library calls, the files written and the lines
    printed.

    What the model takes for granted:
    - an exception a library call raises is an instance of [Exception], the
      class the handler of [download_batch] catches; an interrupt from the
      keyboard is not modelled;
    - [print] and the closing of a response return;
    - a [write_bytes] that raises leaves the file as it was;
    - the builtin [int] on a string and the directory [IMAGES_DIR] are
      parameters of the program. *)

From stdpp Require Import base numbers strings list gmap pretty.
From Stdlib Require Import Ascii.
From Stdlib Require String.
From Stdlib.Strings Require Import Byte.

Open Scope Z_scope.

(** ** Formatting: Python's format specifications on [int] *)

Module Format.

(** [str(n)] for an [int]. *)
Definition str_int (n : Z) : string := pretty n.

Fixpoint zeros (k : nat) : string :=
  match k with
  | O => ""
  | S k' => String "0"%char (zeros k')
  end.

(** [f"{n:0<w>d}"]: decimal, sign first, then zeros up to the width [w];
    a number that needs more than [w] characters is printed in full. *)
Definition format_0d (w : nat) (n : Z) : string :=
  let sign := if bool_decide (n < 0) then "-" else "" in
  let digits := pretty (Z.abs_N n) in
  sign +:+ zeros (w - String.length sign - String.length digits) +:+ digits.

(** [f"{n:04d}"] *)
Definition format_04d (n : Z) : string := format_0d 4 n.

(** [f"{n:,}"]: a comma between groups of three digits; [group3] works on
    the digits least significant first. *)
Fixpoint group3 (l : list ascii) : list ascii :=
  match l with
  | a :: ((b :: (c :: ((_ :: _) as rest))))  =>
      a :: b :: c :: ","%char :: group3 rest
  | _ => l
  end.

Definition format_comma (n : Z) : string :=
  let sign := if bool_decide (n < 0) then "-" else "" in
  let digits := String.list_ascii_of_string (pretty (Z.abs_N n)) in
  sign +:+ String.string_of_list_ascii (rev (group3 (rev digits))).

Definition is_digit (c : ascii) : bool :=
  bool_decide (48 ≤ nat_of_ascii c ≤ 57)%nat.

Definition all_digits (s : string) : bool :=
  forallb is_digit (String.list_ascii_of_string s).

(** A string of exactly four decimal digits: the fixed-width form of a
    photo ID. *)
Definition four_digits (s : string) : bool :=
  bool_decide (String.length s = 4%nat) && all_digits s.

Definition digit_value (c : ascii) : N := (N.of_nat (nat_of_ascii c) - 48)%N.

(** The number a string of digits denotes, read from the left. *)
Fixpoint digits_value (acc : N) (s : string) : N :=
  match s with
  | "" => acc
  | String c s' => digits_value (acc * 10 + digit_value c) s'
  end.

(** Reading back a decimal numeral with an optional minus sign: the
    inverse of [format_0d]. *)
Definition parse_int (s : string) : Z :=
  match s with
  | String "-"%char rest => - Z.of_N (digits_value 0 rest)
  | _ => Z.of_N (digits_value 0 s)
  end.

End Format.

Import Format.

(** ** Data *)

(** The dictionary [results] of [download_batch]:
    [{"success": 0, "failed": [], "sizes": []}]. *)
Record Results := mkResults {
  success : Z;
  failed : list (string * string);
  sizes : list (string * Z)
}.

(** A [pathlib.Path], as its components. *)
Abbreviation path := (list string).

(** [urllib.request.Request]: with no [data] its method is GET. *)
Record request := mkRequest {
  full_url : string;
  headers : list (string * string);
  data : option (list byte)
}.

Definition get_method (r : request) : string :=
  match data r with
  | None => "GET"
  | Some _ => "POST"
  end.

(** The object [urlopen] returns; [resp_read] is what [response.read()]
    does: the body, or the message of the exception it raises. *)
Record response := mkResponse {
  resp_read : string + list byte
}.

(** The library calls the program makes, in the order it makes them. *)
Inductive event :=
| EvRequest (url : string) (hdrs : list (string * string))
| EvUrlopen (req : request) (timeout : Z)
| EvRead
| EvWriteBytes (p : path) (body : list byte)
| EvClose.

(** The world outside the program.  Every answer may depend on the calls
    made before it, so that the same URL may succeed once and fail later.
    [Some msg] and [inl msg] stand for an exception [e] with [str(e) = msg]
    that is an instance of [Exception] (a [ValueError], [URLError],
    [HTTPError], [TimeoutError], [OSError], ...). *)
Record Env := mkEnv {
  request_error : string → option string;
  urlopen_result : list event → request → Z → string + response;
  write_bytes_error : list event → path → list byte → option string
}.

Record state := mkState {
  results : Results;
  log : list event;
  files : gmap (list string) (list byte);
  stdout : list string
}.

Definition set_results (r : Results) (s : state) : state :=
  mkState r (log s) (files s) (stdout s).
Definition add_event (e : event) (s : state) : state :=
  mkState (results s) (log s ++ [e]) (files s) (stdout s).
Definition set_file (p : path) (body : list byte) (s : state) : state :=
  mkState (results s) (log s) (<[p := body]> (files s)) (stdout s).
Definition add_line (l : string) (s : state) : state :=
  mkState (results s) (log s) (files s) (stdout s ++ [l]).

(** ** The monad: state, and Python's exceptions *)

Inductive exn :=
| Exception (msg : string)
| SystemExit (code : Z).

Inductive outcome (A : Type) :=
| Return (a : A)
| Raise (e : exn).
Arguments Return {A} a.
Arguments Raise {A} e.

Definition M (A : Type) : Type := state → outcome A * state.

Global Instance M_ret : MRet M := λ A a s, (Return a, s).
Global Instance M_bind : MBind M := λ A B f m s,
  match m s with
  | (Return a, s') => f a s'
  | (Raise e, s') => (Raise e, s')
  end.
Global Instance M_throw : MThrow exn M := λ A e s, (Raise e, s).

Definition get : M state := λ s, (Return s, s).
Definition modify (f : state → state) : M unit := λ s, (Return tt, f s).

(** [try: body except Exception as e: handler(str(e))]; a [SystemExit] is
    not an [Exception] and passes through. *)
Definition try_except {A} (body : M A) (handler : string → M A) : M A := λ s,
  match body s with
  | (Raise (Exception msg), s') => handler msg s'
  | r => r
  end.

(** [with open_ as x: body x]: [close x] runs when the block is left,
    normally or by an exception, which then goes on. *)
Definition with_as {A B} (open_ : M A) (close : A → M unit) (body : A → M B)
    : M B := λ s,
  match open_ s with
  | (Raise e, s1) => (Raise e, s1)
  | (Return x, s1) =>
      let '(r, s2) := body x s1 in
      match close x s2 with
      | (Return _, s3) => (r, s3)
      | (Raise e, s3) => (Raise e, s3)
      end
  end.

(** [for i, x in enumerate(l, start): body i x] *)
Fixpoint for_enumerate {A} (body : nat → A → M unit) (start : nat)
    (l : list A) : M unit :=
  match l with
  | [] => mret tt
  | x :: rest => body start x ;; for_enumerate body (S start) rest
  end.

(** [for x in l: body x] *)
Fixpoint for_each {A} (body : A → M unit) (l : list A) : M unit :=
  match l with
  | [] => mret tt
  | x :: rest => body x ;; for_each body rest
  end.

Definition exec {A} (m : M A) (s : state) : state := (m s).2.
Definition eval {A} (m : M A) (s : state) : outcome A := (m s).1.

(** [print(line)] *)
Definition print (line : string) : M unit := modify (add_line line).

(** [sys.exit(code)] *)
Definition sys_exit {A} (code : Z) : M A := mthrow (SystemExit code).

(** ** The program *)

Section Program.

(** [env] answers the library calls; [IMAGES_DIR] is the module constant
    [Path(__file__).parent / "extraction/data/images"], which depends on
    where the script is installed; [int_of_str] is the builtin [int] on a
    [str]: the number, or the message of the [ValueError]. *)
Context (env : Env) (IMAGES_DIR : path) (int_of_str : string → string + Z).

(** *** Library calls *)

(** [urllib.request.Request(url, headers=hdrs)]: raises [ValueError] on a
    URL it cannot parse. *)
Definition Request (url : string) (hdrs : list (string * string))
    : M request := λ s,
  let s' := add_event (EvRequest url hdrs) s in
  match request_error env url with
  | Some msg => (Raise (Exception msg), s')
  | None => (Return (mkRequest url hdrs None), s')
  end.

(** [urllib.request.urlopen(req, timeout=timeout)] *)
Definition urlopen (req : request) (timeout : Z) : M response := λ s,
  let s' := add_event (EvUrlopen req timeout) s in
  match urlopen_result env (log s) req timeout with
  | inl msg => (Raise (Exception msg), s')
  | inr resp => (Return resp, s')
  end.

(** [response.read()] *)
Definition read (resp : response) : M (list byte) := λ s,
  let s' := add_event EvRead s in
  match resp_read resp with
  | inl msg => (Raise (Exception msg), s')
  | inr body => (Return body, s')
  end.

(** [response.__exit__]: closes the response. *)
Definition close (resp : response) : M unit := modify (add_event EvClose).

(** [p.write_bytes(body)].  When the write raises, the model leaves the
    file as it was. *)
Definition write_bytes (p : path) (body : list byte) : M unit := λ s,
  let s' := add_event (EvWriteBytes p body) s in
  match write_bytes_error env (log s) p body with
  | Some msg => (Raise (Exception msg), s')
  | None => (Return tt, set_file p body s')
  end.

(** [int(a)] *)
Definition int (a : string) : M Z :=
  match int_of_str a with
  | inl msg => mthrow (Exception msg)
  | inr n => mret n
  end.

(** [len(l)] *)
Definition len {A} (l : list A) : Z := Z.of_nat (List.length l).

(** *** Updates of [results] *)

(** [results["success"] += 1] *)
Definition success_incr : M unit := modify (λ s,
  let r := results s in
  set_results (mkResults (success r + 1) (failed r) (sizes r)) s).

(** [results["sizes"].append(x)] *)
Definition sizes_append (x : string * Z) : M unit := modify (λ s,
  let r := results s in
  set_results (mkResults (success r) (failed r) (sizes r ++ [x])) s).

(** [results["failed"].append(x)] *)
Definition failed_append (x : string * string) : M unit := modify (λ s,
  let r := results s in
  set_results (mkResults (success r) (failed r ++ [x]) (sizes r)) s).

(** *** [download_batch] *)

Definition user_agent : list (string * string) :=
  [("User-Agent", "Mozilla/5.0")].

Definition line_ok (photo_id : string) (n : Z) : string :=
  "  ✓ " +:+ photo_id +:+ ": " +:+ format_comma n +:+ " bytes".

Definition line_failed (photo_id : string) (e : string) : string :=
  "  ✗ " +:+ photo_id +:+ ": " +:+ e.

(** The body of the [try] statement (lines 25 to 31). *)
Definition try_block (photo_id : string) (filepath : path) (url : string)
    : M unit :=
  req ← Request url user_agent;
  with_as (urlopen req 30) close (λ response,
    body ← read response;
    write_bytes filepath body ;;
    success_incr ;;
    sizes_append (photo_id, len body) ;;
    print (line_ok photo_id (len body))).

(** The handler [except Exception as e] (lines 33 and 34). *)
Definition except_block (photo_id : string) (e : string) : M unit :=
  failed_append (photo_id, e) ;;
  print (line_failed photo_id e).

(** Line 21: [photo_id = f"{start_num + i:04d}"]. *)
Definition photo_id (start_num : Z) (i : nat) : string :=
  format_04d (start_num + Z.of_nat i).

(** Line 22: [filepath = IMAGES_DIR / f"{photo_id}.jpg"]. *)
Definition filepath (photo_id : string) : path :=
  IMAGES_DIR ++ [photo_id +:+ ".jpg"].

(** The body of the loop (lines 21 to 34). *)
Definition download_item (start_num : Z) (i : nat) (url : string) : M unit :=
  let photo_id := photo_id start_num i in
  let filepath := filepath photo_id in
  try_except (try_block photo_id filepath url) (except_block photo_id).

Definition download_batch (start_num : Z) (urls : list string) : M Results :=
  modify (set_results (mkResults 0 [] [])) ;;
  for_enumerate (download_item start_num) 0 urls ;;
  s ← get;
  mret (results s).

(** What the environment answers when an item for [url] starts in state
    [s]: [fetch_result] is what lines 25 to 27 obtain, the body read or the
    message of the exception raised on the way; [write_result] is what
    [write_bytes] of line 28 then does with that body, [None] when it
    returns. *)
Definition fetch_result (s : state) (url : string) : string + list byte :=
  match request_error env url with
  | Some msg => inl msg
  | None =>
      match urlopen_result env (log s ++ [EvRequest url user_agent])
                           (mkRequest url user_agent None) 30 with
      | inl msg => inl msg
      | inr resp => resp_read resp
      end
  end.

Definition write_result (s : state) (url : string) (fp : path)
    (body : list byte) : option string :=
  write_bytes_error env
    (log s ++ [EvRequest url user_agent;
               EvUrlopen (mkRequest url user_agent None) 30; EvRead])
    fp body.

(** The state in which the item at position [k] starts: [results] is new
    and the loop has done the [k] items before it.  At [k = len(urls)] it is
    the state in which [download_batch] returns. *)
Definition state_at (start_num : Z) (urls : list string) (k : nat)
    (s0 : state) : state :=
  exec (for_enumerate (download_item start_num) 0 (take k urls))
       (set_results (mkResults 0 [] []) s0).

(** *** [main] *)

Definition usage : string :=
  "Usage: python download_images.py <start_num> <url1> <url2> ...".

Definition newline : string := String "010"%char "".

Definition main (argv : list string) : M unit :=
  (if bool_decide (List.length argv < 3)%nat
   then print usage ;; sys_exit 1
   else mret tt) ;;
  start_num ← match argv !! 1%nat with
              | Some a => int a
              | None => mthrow (Exception "list index out of range")
              end;
  let urls := drop 2 argv in
  print ("Downloading " +:+ str_int (len urls) +:+ " images starting from "
         +:+ format_04d start_num +:+ "...") ;;
  results ← download_batch start_num urls;
  print (newline +:+ "Results: " +:+ str_int (success results) +:+ "/"
         +:+ str_int (len urls) +:+ " successful") ;;
  if bool_decide (failed results ≠ [])
  then print "Failed:" ;;
       for_each
         (λ '(photo_id, err), print ("  " +:+ photo_id +:+ ": " +:+ err))
         (failed results)
  else mret tt.

(** The exit status of the process that runs [main()]: [0] when [main]
    returns, the code of a [SystemExit], and [1] after the traceback of an
    exception nothing caught. *)
Definition exit_status (r : outcome unit) : Z :=
  match r with
  | Return _ => 0
  | Raise (SystemExit code) => code
  | Raise (Exception _) => 1
  end.

Definition run (argv : list string) (s : state) : Z * state :=
  let '(r, s') := main argv s in (exit_status r, s').

End Program.

(** A fresh process: nothing called, written or printed yet. *)
Definition initial : state := mkState (mkResults 0 [] []) [] ∅ [].

(** What a log of library calls holds: the URLs a [Request] was built for,
    the calls of [urlopen] and the calls of [write_bytes]. *)
Definition requested (l : list event) : list string :=
  omap (λ e, match e with EvRequest url _ => Some url | _ => None end) l.

Definition opened (l : list event) : list (request * Z) :=
  omap (λ e, match e with EvUrlopen req t => Some (req, t) | _ => None end) l.

Definition written (l : list event) : list (path * list byte) :=
  omap (λ e, match e with EvWriteBytes p b => Some (p, b) | _ => None end) l.

(** The photo IDs of the first [k] positions of a batch. *)
Definition photo_ids (start_num : Z) (k : nat) : list string :=
  photo_id start_num <$> seq 0 k.

(** A malformed invocation: fewer than a start number and one URL, or a
    start number that [int] rejects. *)
Definition malformed (int_of_str : string → string + Z) (argv : list string)
    : bool :=
  bool_decide (length argv < 3)%nat
  || match argv !! 1%nat with
     | Some a => match int_of_str a with inl _ => true | inr _ => false end
     | None => true
     end.

(** ** Outcomes, position by position *)

(** What an item for [url] that starts in state [s] comes to: the message
    of the exception its [try] block raises, or the body it has fetched and
    written to [fp]. *)
Definition item_outcome (env : Env) (s : state) (url : string) (fp : path)
    : string + list byte :=
  match fetch_result env s url with
  | inl msg => inl msg
  | inr body =>
      match write_result env s url fp body with
      | Some msg => inl msg
      | None => inr body
      end
  end.

(** The same for the item at position [i] of a batch; [None] past the end
    of the list. *)
Definition outcome_at (env : Env) (IMAGES_DIR : path) (start_num : Z)
    (urls : list string) (s0 : state) (i : nat) : option (string + list byte) :=
  match urls !! i with
  | Some url =>
      Some (item_outcome env (state_at env IMAGES_DIR start_num urls i s0) url
              (filepath IMAGES_DIR (photo_id start_num i)))
  | None => None
  end.

(** The body the item at position [i] fetches, if it fetches one. *)
Definition fetched_at (env : Env) (IMAGES_DIR : path) (start_num : Z)
    (urls : list string) (s0 : state) (i : nat) : option (list byte) :=
  match urls !! i with
  | Some url =>
      match fetch_result env (state_at env IMAGES_DIR start_num urls i s0) url
      with
      | inr body => Some body
      | inl _ => None
      end
  | None => None
  end.

(** The entries and the progress line an outcome leaves. *)
Definition failed_entry (photo_id : string) (o : option (string + list byte))
    : option (string * string) :=
  match o with
  | Some (inl msg) => Some (photo_id, msg)
  | _ => None
  end.

Definition sizes_entry (photo_id : string) (o : option (string + list byte))
    : option (string * Z) :=
  match o with
  | Some (inr body) => Some (photo_id, len body)
  | _ => None
  end.

Definition progress_line (photo_id : string) (o : option (string + list byte))
    : option string :=
  match o with
  | Some (inl msg) => Some (line_failed photo_id msg)
  | Some (inr body) => Some (line_ok photo_id (len body))
  | None => None
  end.

(** The lines [main] prints around the batch (lines 46, 49 and 53). *)
Definition line_downloading (n start_num : Z) : string :=
  "Downloading " +:+ str_int n +:+ " images starting from "
  +:+ format_04d start_num +:+ "...".

Definition line_tally (k n : Z) : string :=
  newline +:+ "Results: " +:+ str_int k +:+ "/" +:+ str_int n +:+ " successful".

Definition line_listed (x : string * string) : string :=
  let '(photo_id, err) := x in "  " +:+ photo_id +:+ ": " +:+ err.

(** The calls of one item: the log it may add. *)
Definition item_calls (url : string) (fp : path) (evs : list event) : Prop :=
  let req := mkRequest url user_agent None in
  evs = [EvRequest url user_agent]
  ∨ evs = [EvRequest url user_agent; EvUrlopen req 30]
  ∨ evs = [EvRequest url user_agent; EvUrlopen req 30; EvRead; EvClose]
  ∨ ∃ body, evs = [EvRequest url user_agent; EvUrlopen req 30; EvRead;
                   EvWriteBytes fp body; EvClose].

(** A sample command line: the start number 5 and two URLs. *)
Definition sample_argv : list string :=
  ["download_images.py"; "5"; "http://a/x.jpg"; "http://b/y.jpg"].

(** ** Sample environments *)

Module Examples.

(** [int] on plain decimal numerals. *)
Definition int_decimal (a : string) : string + Z :=
  let digits := match a with String "-"%char rest => rest | _ => a end in
  if bool_decide (digits ≠ "") && all_digits digits
  then inr (parse_int a)
  else inl ("invalid literal for int() with base 10: '" +:+ a +:+ "'").

(** [Request] accepts a URL that starts with a scheme: some characters
    other than [/] and [:], then a colon. *)
Fixpoint scheme_end (s : string) : bool :=
  match s with
  | "" => false
  | String c s' =>
      if bool_decide (c = ":"%char) then true
      else if bool_decide (c = "/"%char) then false
      else scheme_end s'
  end.

Definition has_scheme (url : string) : bool :=
  match url with
  | "" => false
  | String c s' =>
      bool_decide (c ≠ ":"%char) && bool_decide (c ≠ "/"%char)
      && scheme_end s'
  end.

Definition check_url (url : string) : option string :=
  if has_scheme url then None
  else Some ("unknown url type: '" +:+ url +:+ "'").

Definition jpeg : list byte := [xff; xd8; xff; xe0; x00; x10]%byte.

(** Every server answers with an image and every file can be written. *)
Definition env_ok : Env :=
  mkEnv check_url (λ _ _ _, inr (mkResponse (inr jpeg))) (λ _ _ _, None).

(** The host [b] answers 404; everything else works. *)
Definition env_b_404 : Env :=
  mkEnv check_url
    (λ _ req _, if bool_decide (full_url req = "http://b/y.jpg")
                then inl "HTTP Error 404: Not Found"
                else inr (mkResponse (inr jpeg)))
    (λ _ _ _, None).

(** The directory of the images does not exist: no file can be written. *)
Definition env_no_dir : Env :=
  mkEnv check_url (λ _ _ _, inr (mkResponse (inr jpeg)))
    (λ _ _ _, Some "[Errno 2] No such file or directory").

(** No server can be reached. *)
Definition env_offline : Env :=
  mkEnv check_url
    (λ _ _ _, inl "<urlopen error [Errno 101] Network is unreachable>")
    (λ _ _ _, None).

Definition images : path := ["extraction"; "data"; "images"].

Definition two_urls : list string := ["http://a/x.jpg"; "http://b/y.jpg"].

Definition three_urls : list string :=
  ["http://a/x.jpg"; "http://b/y.jpg"; "http://c/z.jpg"].

End Examples.

(** ** Formatting, on samples *)

Example format_04d_5 : format_04d 5 = "0005".
Proof. reflexivity. Qed.
Example format_04d_1234 : format_04d 1234 = "1234".
Proof. reflexivity. Qed.
Example format_04d_12345 : format_04d 12345 = "12345".
Proof. reflexivity. Qed.
Example format_04d_m5 : format_04d (-5) = "-005".
Proof. reflexivity. Qed.
Example format_04d_m1234 : format_04d (-1234) = "-1234".
Proof. reflexivity. Qed.
Example format_comma_1234567 : format_comma 1234567 = "1,234,567".
Proof. reflexivity. Qed.
Example format_comma_123 : format_comma 123 = "123".
Proof. reflexivity. Qed.
Example format_comma_0 : format_comma 0 = "0".
Proof. reflexivity. Qed.

(** ** Facts on the decimal digits of a number *)

Module FormatFacts.

Lemma string_length_app (s t : string) :
  String.length (s +:+ t) = (String.length s + String.length t)%nat.
Proof. induction s as [|c s IH]; simpl; [done | by rewrite IH]. Qed.

Lemma string_app_assoc (s t u : string) : (s +:+ t) +:+ u = s +:+ (t +:+ u).
Proof. induction s as [|c s IH]; [done | exact (f_equal (String c) IH)]. Qed.

Lemma length_zeros k : String.length (zeros k) = k.
Proof. induction k as [|k IH]; simpl; [done | by rewrite IH]. Qed.

Lemma all_digits_app s t :
  all_digits (s +:+ t) = all_digits s && all_digits t.
Proof.
  unfold all_digits. induction s as [|c s IH]; simpl; [done|].
  by rewrite IH, andb_assoc.
Qed.

Lemma all_digits_zeros k : all_digits (zeros k) = true.
Proof. induction k as [|k IH]; [done | exact IH]. Qed.

Lemma digits_value_app acc s t :
  digits_value acc (s +:+ t) = digits_value (digits_value acc s) t.
Proof.
  revert acc. induction s as [|c s IH]; intros acc; simpl; [done | apply IH].
Qed.

Lemma digits_value_zeros k : digits_value 0 (zeros k) = 0%N.
Proof. induction k as [|k IH]; [done | exact IH]. Qed.

Lemma pretty_N_char_digit x : is_digit (pretty_N_char x) = true.
Proof. unfold pretty_N_char. by repeat case_match. Qed.

Lemma pretty_N_char_value x : (x < 10)%N → digit_value (pretty_N_char x) = x.
Proof.
  intros Hx.
  assert (x = 0 ∨ x = 1 ∨ x = 2 ∨ x = 3 ∨ x = 4 ∨ x = 5 ∨ x = 6
          ∨ x = 7 ∨ x = 8 ∨ x = 9)%N as Hc by lia.
  by repeat (destruct Hc as [->|Hc]; [done|]); subst.
Qed.

(** [pretty_N_go x s] puts the digits of [x] in front of [s]. *)
Lemma pretty_N_go_app x s : pretty_N_go x s = pretty_N_go x "" +:+ s.
Proof.
  revert s. induction (N.lt_wf_0 x) as [x _ IH]; intros s.
  assert (x = 0 ∨ 0 < x)%N as [->|Hx] by lia.
  - by rewrite !pretty_N_go_0.
  - rewrite (pretty_N_go_step x s), (pretty_N_go_step x "") by done.
    assert (x `div` 10 < x)%N as Hlt by (by apply N.div_lt).
    rewrite (IH _ Hlt (String _ s)), (IH _ Hlt (String _ "")).
    by rewrite string_app_assoc.
Qed.

Lemma pretty_N_go_digits x : all_digits (pretty_N_go x "") = true.
Proof.
  induction (N.lt_wf_0 x) as [x _ IH].
  assert (x = 0 ∨ 0 < x)%N as [->|Hx] by lia; [done|].
  rewrite pretty_N_go_step, pretty_N_go_app, all_digits_app by done.
  rewrite IH by (by apply N.div_lt). simpl.
  unfold all_digits; simpl. by rewrite pretty_N_char_digit.
Qed.

Lemma pretty_N_go_value x : digits_value 0 (pretty_N_go x "") = x.
Proof.
  induction (N.lt_wf_0 x) as [x _ IH].
  assert (x = 0 ∨ 0 < x)%N as [->|Hx] by lia; [done|].
  rewrite pretty_N_go_step, pretty_N_go_app, digits_value_app by done.
  rewrite IH by (by apply N.div_lt). simpl.
  rewrite pretty_N_char_value by (by apply N.mod_lt).
  rewrite (N.div_mod x 10) at 3 by done. lia.
Qed.

Lemma pretty_N_go_length_le k x :
  (x < 10 ^ N.of_nat k)%N → (String.length (pretty_N_go x "") ≤ k)%nat.
Proof.
  revert x. induction k as [|k IH]; intros x Hx.
  - assert (x = 0)%N as -> by (simpl in Hx; lia). done.
  - assert (x = 0 ∨ 0 < x)%N as [->|Hpos] by lia; [simpl; lia|].
    rewrite pretty_N_go_step, pretty_N_go_app, string_length_app by done. simpl.
    assert (x `div` 10 < 10 ^ N.of_nat k)%N.
    { apply N.Div0.div_lt_upper_bound.
      rewrite Nat2N.inj_succ, N.pow_succ_r' in Hx. lia. }
    specialize (IH _ H). lia.
Qed.

Lemma pretty_N_go_length_gt k x :
  (10 ^ N.of_nat k ≤ x)%N → (k < String.length (pretty_N_go x ""))%nat.
Proof.
  revert x. induction k as [|k IH]; intros x Hx.
  - assert (0 < x)%N by (simpl in Hx; lia).
    rewrite pretty_N_go_step, pretty_N_go_app, string_length_app by done.
    simpl. lia.
  - assert (0 < 10 ^ N.of_nat (S k))%N
      by (apply N.neq_0_lt_0, N.pow_nonzero; lia).
    rewrite pretty_N_go_step, pretty_N_go_app, string_length_app by lia. simpl.
    assert (10 ^ N.of_nat k ≤ x `div` 10)%N.
    { apply N.div_le_lower_bound; [lia|].
      rewrite Nat2N.inj_succ, N.pow_succ_r' in Hx. lia. }
    specialize (IH _ H0). lia.
Qed.

Lemma pretty_N_unfold (x : N) :
  pretty x = if decide (x = 0%N) then "0" else pretty_N_go x "".
Proof. done. Qed.

Lemma pretty_N_digits (x : N) : all_digits (pretty x) = true.
Proof.
  rewrite pretty_N_unfold. case_decide; [done | apply pretty_N_go_digits].
Qed.

Lemma pretty_N_value (x : N) : digits_value 0 (pretty x) = x.
Proof.
  rewrite pretty_N_unfold. case_decide; [by subst | apply pretty_N_go_value].
Qed.

Lemma pretty_N_length_pos (x : N) : (1 ≤ String.length (pretty x))%nat.
Proof.
  rewrite pretty_N_unfold. case_decide; [done|].
  apply (pretty_N_go_length_gt 0). simpl. lia.
Qed.

Lemma pretty_N_length_le k (x : N) :
  (0 < k)%nat → (x < 10 ^ N.of_nat k)%N → (String.length (pretty x) ≤ k)%nat.
Proof.
  intros Hk Hx. rewrite pretty_N_unfold.
  case_decide; [simpl; lia | by apply pretty_N_go_length_le].
Qed.

Lemma pretty_N_length_gt k (x : N) :
  (10 ^ N.of_nat k ≤ x)%N → (k < String.length (pretty x))%nat.
Proof.
  intros Hx. rewrite pretty_N_unfold. case_decide as H0.
  - subst. assert (0 < 10 ^ N.of_nat k)%N; [|lia].
    apply N.neq_0_lt_0, N.pow_nonzero; lia.
  - by apply pretty_N_go_length_gt.
Qed.

Lemma format_0d_nonneg w n :
  (0 ≤ n)%Z →
  format_0d w n
  = zeros (w - String.length (pretty (Z.to_N n))) +:+ pretty (Z.to_N n).
Proof.
  intros Hn. unfold format_0d.
  rewrite bool_decide_eq_false_2 by lia. simpl.
  replace (Z.abs_N n) with (Z.to_N n) by lia.
  by rewrite Nat.sub_0_r.
Qed.

Lemma format_0d_neg w n :
  n < 0 →
  format_0d w n
  = String "-"%char
      (zeros (w - 1 - String.length (pretty (Z.abs_N n))) +:+ pretty (Z.abs_N n)).
Proof. intros Hn. unfold format_0d. by rewrite bool_decide_eq_true_2 by lia. Qed.

(** Python's [int] undoes the formatting. *)
Lemma parse_format_0d w n : parse_int (format_0d w n) = n.
Proof.
  destruct (decide (n < 0)) as [Hn|Hn].
  - rewrite format_0d_neg by done. simpl.
    rewrite digits_value_app, digits_value_zeros, pretty_N_value. lia.
  - rewrite format_0d_nonneg by lia.
    assert (all_digits (zeros (w - String.length (pretty (Z.to_N n)))
                        +:+ pretty (Z.to_N n)) = true) as Hd.
    { by rewrite all_digits_app, all_digits_zeros, pretty_N_digits. }
    unfold parse_int.
    destruct (zeros _ +:+ _) as [|c rest] eqn:E.
    + rewrite <-E, digits_value_app, digits_value_zeros, pretty_N_value. lia.
    + assert (c ≠ "-"%char) as Hc by (intros ->; done).
      rewrite <-E, digits_value_app, digits_value_zeros, pretty_N_value.
      destruct c as [[] [] [] [] [] [] [] []]; try lia; done.
Qed.

Lemma format_04d_inj a b : format_04d a = format_04d b → a = b.
Proof.
  intros H. rewrite <-(parse_format_0d 4 a), <-(parse_format_0d 4 b).
  unfold format_04d in H. by rewrite H.
Qed.

Lemma format_04d_length_big n : 9999 < n → (4 < String.length (format_04d n))%nat.
Proof.
  intros Hn. unfold format_04d. rewrite format_0d_nonneg, string_length_app by lia.
  assert (4 < String.length (pretty (Z.to_N n)))%nat; [|lia].
  apply pretty_N_length_gt. simpl. lia.
Qed.

(** The width alone is four from -999 to 9999: [-5] gives ["-005"]. *)
Lemma format_04d_length_4 n :
  String.length (format_04d n) = 4%nat ↔ -999 ≤ n ≤ 9999.
Proof.
  unfold format_04d. destruct (decide (n < 0)) as [Hneg|Hneg].
  - rewrite format_0d_neg by done. simpl.
    rewrite string_length_app, length_zeros.
    pose proof (pretty_N_length_pos (Z.abs_N n)) as Hpos.
    destruct (decide (-999 ≤ n)) as [Hn|Hn].
    + pose proof (pretty_N_length_le 3 (Z.abs_N n)) as Hle.
      split; [lia|]. intros _.
      assert (String.length (pretty (Z.abs_N n)) ≤ 3)%nat; [|lia].
      apply Hle; [lia | simpl; lia].
    + pose proof (pretty_N_length_gt 3 (Z.abs_N n)) as Hgt.
      split; [|lia]. intros Hlen.
      assert (3 < String.length (pretty (Z.abs_N n)))%nat; [|lia].
      apply Hgt. simpl. lia.
  - rewrite format_0d_nonneg, string_length_app, length_zeros by lia.
    pose proof (pretty_N_length_pos (Z.to_N n)) as Hpos.
    destruct (decide (n ≤ 9999)) as [Hn|Hn].
    + pose proof (pretty_N_length_le 4 (Z.to_N n)) as Hle.
      split; [lia|]. intros _.
      assert (String.length (pretty (Z.to_N n)) ≤ 4)%nat; [|lia].
      apply Hle; [lia | simpl; lia].
    + pose proof (pretty_N_length_gt 4 (Z.to_N n)) as Hgt.
      split; [|lia]. intros Hlen.
      assert (4 < String.length (pretty (Z.to_N n)))%nat; [|lia].
      apply Hgt. simpl. lia.
Qed.

Lemma format_04d_four_digits n : four_digits (format_04d n) = true ↔ (0 ≤ n ≤ 9999)%Z.
Proof.
  unfold four_digits. fold (all_digits (format_04d n)).
  rewrite andb_true_iff, bool_decide_eq_true. split.
  - intros [Hlen Hdig].
    destruct (decide (n < 0)) as [Hneg|Hneg].
    { unfold format_04d in Hdig. by rewrite format_0d_neg in Hdig. }
    destruct (decide (9999 < n)) as [Hbig|Hbig]; [|lia].
    apply format_04d_length_big in Hbig. lia.
  - intros [H0 H9]. unfold format_04d.
    rewrite format_0d_nonneg, string_length_app, length_zeros, all_digits_app,
      all_digits_zeros, pretty_N_digits by done.
    split; [|done].
    assert (String.length (pretty (Z.to_N n)) ≤ 4)%nat; [|lia].
    apply pretty_N_length_le; [lia | simpl; lia].
Qed.

End FormatFacts.

Import FormatFacts.

(** ** One item of the batch *)

Section ItemFacts.

Context (env : Env) (IMAGES_DIR : path).
Implicit Types (s : state) (url pid msg : string) (fp : path) (i k : nat).

Local Abbreviation download_item := (download_item env IMAGES_DIR).
Local Abbreviation try_block := (try_block env).
Local Abbreviation filepath := (filepath IMAGES_DIR).
Local Abbreviation fetch_result := (fetch_result env).
Local Abbreviation write_result := (write_result env).

(** The [try] block, call by call. *)
Lemma try_block_eq pid fp url s :
  try_block pid fp url s =
  let s1 := add_event (EvRequest url user_agent) s in
  match request_error env url with
  | Some msg => (Raise (Exception msg), s1)
  | None =>
    let req := mkRequest url user_agent None in
    let s2 := add_event (EvUrlopen req 30) s1 in
    match urlopen_result env (log s1) req 30 with
    | inl msg => (Raise (Exception msg), s2)
    | inr resp =>
      let s3 := add_event EvRead s2 in
      match resp_read resp with
      | inl msg => (Raise (Exception msg), add_event EvClose s3)
      | inr body =>
        let s4 := add_event (EvWriteBytes fp body) s3 in
        match write_bytes_error env (log s3) fp body with
        | Some msg => (Raise (Exception msg), add_event EvClose s4)
        | None =>
          (Return tt,
           mkState (mkResults (success (results s) + 1) (failed (results s))
                      (sizes (results s) ++ [(pid, len body)]))
                   (log s4 ++ [EvClose]) (<[fp := body]> (files s))
                   (stdout s ++ [line_ok pid (len body)]))
        end
      end
    end
  end.
Proof.
  unfold try_block, Request, with_as, urlopen, read,
    write_bytes, close.
  unfold mbind, M_bind. simpl.
  destruct (request_error env url); [done|].
  destruct (urlopen_result env _ _ _) as [?|resp]; [done|]. simpl.
  destruct (resp_read resp); [done|]. simpl.
  destruct (write_bytes_error env _ _ _); done.
Qed.

(** Whether the [try] block raises, in terms of the environment. *)
Lemma eval_try_block pid fp url s :
  eval (try_block pid fp url) s =
  match fetch_result s url with
  | inl msg => Raise (Exception msg)
  | inr body =>
      match write_result s url fp body with
      | Some msg => Raise (Exception msg)
      | None => Return tt
      end
  end.
Proof.
  unfold eval, fetch_result, write_result.
  rewrite try_block_eq. simpl.
  destruct (request_error env url); [done|].
  destruct (urlopen_result env _ _ _) as [?|resp]; [done|].
  destruct (resp_read resp); [done|].
  rewrite <-!(assoc_L (++)). simpl.
  destruct (write_bytes_error env _ _ _); done.
Qed.

(** The [try] block raises nothing but an [Exception]. *)
Lemma try_block_outcome pid fp url s :
  eval (try_block pid fp url) s = Return tt
  ∨ ∃ msg, eval (try_block pid fp url) s = Raise (Exception msg).
Proof.
  rewrite eval_try_block.
  destruct (fetch_result s url) as [?|body]; [eauto|].
  destruct (write_result s url fp body); eauto.
Qed.

(** An item never raises: whatever the [try] block does, the loop goes on. *)
Lemma download_item_returns start_num i url s :
  download_item start_num i url s
  = (Return tt, exec (download_item start_num i url) s).
Proof.
  unfold exec, download_item, try_except.
  rewrite try_block_eq. simpl.
  destruct (request_error env url); [done|].
  destruct (urlopen_result env _ _ _) as [?|resp]; [done|].
  destruct (resp_read resp); [done|].
  destruct (write_bytes_error env _ _ _); done.
Qed.

(** The update of [results] by an item whose [try] block raises ... *)
Lemma item_failure start_num i url s msg :
  eval (try_block (photo_id start_num i) (filepath (photo_id start_num i)) url) s
    = Raise (Exception msg) →
  let s' := exec (download_item start_num i url) s in
  results s' = mkResults (success (results s))
                 (failed (results s) ++ [(photo_id start_num i, msg)])
                 (sizes (results s))
  ∧ files s' = files s
  ∧ stdout s' = stdout s ++ [line_failed (photo_id start_num i) msg].
Proof.
  unfold eval, exec, download_item, try_except.
  rewrite try_block_eq. simpl.
  destruct (request_error env url); [by intros [= ->]|].
  destruct (urlopen_result env _ _ _) as [?|resp]; [by intros [= ->]|].
  destruct (resp_read resp); [by intros [= ->]|].
  destruct (write_bytes_error env _ _ _); [by intros [= ->]|done].
Qed.

(** ... and by one whose [try] block returns. *)
Lemma item_success start_num i url s :
  eval (try_block (photo_id start_num i) (filepath (photo_id start_num i)) url) s
    = Return tt →
  ∃ body,
    fetch_result s url = inr body
    ∧ write_result s url (filepath (photo_id start_num i)) body = None
    ∧ let s' := exec (download_item start_num i url) s in
      results s' = mkResults (success (results s) + 1) (failed (results s))
                     (sizes (results s) ++ [(photo_id start_num i, len body)])
      ∧ files s' = <[filepath (photo_id start_num i) := body]> (files s)
      ∧ stdout s' = stdout s ++ [line_ok (photo_id start_num i) (len body)].
Proof.
  intros H. pose proof H as H'. rewrite eval_try_block in H'.
  destruct (fetch_result s url) as [?|body] eqn:Hf; [done|].
  destruct (write_result s url _ body) eqn:Hw; [done|].
  exists body. split_and!; [done..|].
  revert Hf Hw.
  unfold fetch_result, write_result, exec, download_item, try_except.
  rewrite try_block_eq. simpl.
  destruct (request_error env url); [done|].
  destruct (urlopen_result env _ _ _) as [?|resp]; [done|].
  intros ->. rewrite <-!(assoc_L (++)). simpl. by intros ->.
Qed.

(** The library calls of an item: one [Request] for its URL; one [urlopen],
    if the [Request] could be built, with the [User-Agent] header and the
    timeout of 30 seconds; nothing of the log before is lost. *)
Lemma item_log start_num i url s :
  ∃ evs,
    log (exec (download_item start_num i url) s) = log s ++ evs
    ∧ requested evs = [url]
    ∧ opened evs = match request_error env url with
                   | None => [(mkRequest url user_agent None, 30)]
                   | Some _ => []
                   end.
Proof.
  unfold exec, download_item, try_except.
  rewrite try_block_eq. simpl.
  unfold except_block, failed_append, print, modify, mbind, M_bind,
    add_line, set_results, add_event, set_file. simpl.
  destruct (request_error env url); [by eexists [_]|].
  destruct (urlopen_result env _ _ _) as [?|resp];
    [eexists [_; _]; by rewrite <-!(assoc_L (++))|].
  destruct (resp_read resp);
    [eexists [_; _; _; _]; by rewrite <-!(assoc_L (++))|].
  destruct (write_bytes_error env _ _ _);
    eexists [_; _; _; _; _]; by rewrite <-!(assoc_L (++)).
Qed.

(** Once the body is fetched, [write_bytes] is called with the file of the
    item and that very body. *)
Lemma item_written start_num i url s body :
  fetch_result s url = inr body →
  written (log (exec (download_item start_num i url) s))
  = written (log s) ++ [(filepath (photo_id start_num i), body)].
Proof.
  unfold fetch_result, exec, download_item, try_except.
  rewrite try_block_eq. simpl.
  destruct (request_error env url); [done|].
  destruct (urlopen_result env _ _ _) as [?|resp]; [done|].
  intros ->.
  unfold except_block, failed_append, print, modify, mbind, M_bind,
    add_line, set_results, add_event, set_file. simpl.
  destruct (write_bytes_error env _ _ _); simpl;
    unfold written; by rewrite !omap_app; simpl; rewrite !app_nil_r.
Qed.

End ItemFacts.

(** ** The loop and the batch *)

Section BatchFacts.

Context (env : Env) (IMAGES_DIR : path).
Implicit Types (s : state) (url pid msg : string) (fp : path) (i k : nat)
  (urls : list string).

Local Abbreviation download_item := (download_item env IMAGES_DIR).
Local Abbreviation download_batch := (download_batch env IMAGES_DIR).
Local Abbreviation try_block := (try_block env).
Local Abbreviation filepath := (filepath IMAGES_DIR).
Local Abbreviation fetch_result := (fetch_result env).
Local Abbreviation write_result := (write_result env).
Local Abbreviation state_at := (state_at env IMAGES_DIR).

Lemma loop_returns start_num urls i s :
  for_enumerate (download_item start_num) i urls s
  = (Return tt, exec (for_enumerate (download_item start_num) i urls) s).
Proof.
  revert i s. induction urls as [|url urls IH]; intros i s; [done|].
  unfold exec. simpl. unfold mbind, M_bind.
  rewrite download_item_returns, IH. done.
Qed.

Lemma loop_snoc start_num urls url i s :
  exec (for_enumerate (download_item start_num) i (urls ++ [url])) s
  = exec (download_item start_num (i + length urls) url)
         (exec (for_enumerate (download_item start_num) i urls) s).
Proof.
  revert i s. induction urls as [|u urls IH]; intros i s.
  - unfold exec. simpl. unfold mbind, M_bind.
    rewrite download_item_returns, Nat.add_0_r. done.
  - unfold exec in *. simpl. unfold mbind, M_bind.
    rewrite download_item_returns.
    rewrite IH. by rewrite Nat.add_succ_comm.
Qed.

Lemma state_at_0 start_num urls s0 :
  state_at start_num urls 0 s0 = set_results (mkResults 0 [] []) s0.
Proof. done. Qed.

Lemma state_at_S start_num urls k url s0 :
  urls !! k = Some url →
  state_at start_num urls (S k) s0
  = exec (download_item start_num k url) (state_at start_num urls k s0).
Proof.
  intros Hk. unfold state_at.
  rewrite (take_S_r _ _ _ Hk), loop_snoc.
  rewrite length_take_le; [done|].
  apply lookup_lt_Some in Hk. lia.
Qed.

(** [download_batch] returns, in the state the loop ends in. *)
Lemma download_batch_eq start_num urls s0 :
  download_batch start_num urls s0
  = (Return (results (state_at start_num urls (length urls) s0)),
     state_at start_num urls (length urls) s0).
Proof.
  unfold download_batch, state_at, modify, get.
  unfold mbind, M_bind, mret, M_ret. simpl.
  rewrite loop_returns. by rewrite firstn_all.
Qed.

(** Induction along the items of a batch. *)
Lemma batch_ind start_num urls s0 (P : nat → state → Prop) :
  P 0%nat (set_results (mkResults 0 [] []) s0) →
  (∀ k url s, urls !! k = Some url → s = state_at start_num urls k s0 →
              P k s → P (S k) (exec (download_item start_num k url) s)) →
  ∀ k, (k ≤ length urls)%nat → P k (state_at start_num urls k s0).
Proof.
  intros H0 HS k. induction k as [|k IH]; intros Hk; [done|].
  destruct (lookup_lt_is_Some_2 urls k) as [url Hurl]; [lia|].
  rewrite (state_at_S _ _ _ _ _ Hurl).
  apply HS; [done..|]. apply IH. lia.
Qed.

End BatchFacts.

(** ** What a batch leaves behind *)

Section BatchInvariants.

Context (env : Env) (IMAGES_DIR : path).
Implicit Types (s : state) (url pid msg : string) (fp : path) (i k : nat)
  (urls : list string).

Local Abbreviation download_item := (download_item env IMAGES_DIR).
Local Abbreviation try_block := (try_block env).
Local Abbreviation filepath := (filepath IMAGES_DIR).
Local Abbreviation fetch_result := (fetch_result env).
Local Abbreviation write_result := (write_result env).
Local Abbreviation state_at := (state_at env IMAGES_DIR).

Lemma string_app_inj_r (s s' t : string) : s +:+ t = s' +:+ t → s = s'.
Proof.
  revert s'. induction s as [|c s IH]; intros [|c' s'] H.
  - done.
  - apply (f_equal String.length) in H.
    rewrite !string_length_app in H. simpl in H. lia.
  - apply (f_equal String.length) in H.
    rewrite !string_length_app in H. simpl in H. lia.
  - injection H as -> H. f_equal. by apply IH.
Qed.

(** Two positions of a batch never share a photo ID or a file. *)
Lemma photo_id_inj start_num i j :
  photo_id start_num i = photo_id start_num j → i = j.
Proof. unfold photo_id. intros H%format_04d_inj. lia. Qed.

Lemma filepath_inj pid pid' : filepath pid = filepath pid' → pid = pid'.
Proof.
  unfold filepath. intros H%app_inv_head.
  injection H as H. by apply string_app_inj_r in H.
Qed.

Lemma requested_app l1 l2 : requested (l1 ++ l2) = requested l1 ++ requested l2.
Proof. apply omap_app. Qed.

Lemma opened_app l1 l2 : opened (l1 ++ l2) = opened l1 ++ opened l2.
Proof. apply omap_app. Qed.

Lemma written_app l1 l2 : written (l1 ++ l2) = written l1 ++ written l2.
Proof. apply omap_app. Qed.

Lemma elem_of_snoc {A} (l : list A) (x : A) : x ∈ l ++ [x].
Proof. apply elem_of_app. right. by apply list_elem_of_singleton. Qed.

Lemma elem_of_app_l {A} (l l' : list A) (x : A) : x ∈ l → x ∈ l ++ l'.
Proof. intros. apply elem_of_app. by left. Qed.

(** The two ways the item at position [k] can go from the state [s]: its
    [try] block returns, or it raises. *)
Local Ltac item_cases start_num k url s :=
  destruct (try_block_outcome env (photo_id start_num k)
              (filepath (photo_id start_num k)) url s) as [Hok|[msg Herr]];
  [ destruct (item_success env IMAGES_DIR _ _ _ _ Hok)
      as (body & Hfetch & Hwrite & Hres & Hfiles & Hout)
  | destruct (item_failure env IMAGES_DIR _ _ _ _ _ Herr)
      as (Hres & Hfiles & Hout) ].

(** Every item adds one outcome. *)
Lemma batch_counts start_num urls s0 k :
  (k ≤ length urls)%nat →
  let r := results (state_at start_num urls k s0) in
  success r + len (failed r) = Z.of_nat k ∧ len (sizes r) = success r.
Proof.
  apply (batch_ind env IMAGES_DIR start_num urls s0
           (λ k s, success (results s) + len (failed (results s)) = Z.of_nat k
                   ∧ len (sizes (results s)) = success (results s)));
    [done|].
  clear k. intros k url s Hurl _ [IH1 IH2].
  item_cases start_num k url s.
  - rewrite Hres. simpl. unfold len in *. rewrite length_app. simpl. lia.
  - rewrite Hres. simpl. unfold len in *. rewrite length_app. simpl. lia.
Qed.

Lemma photo_ids_S start_num k :
  photo_ids start_num (S k) = photo_ids start_num k ++ [photo_id start_num k].
Proof. unfold photo_ids. by rewrite seq_S, fmap_app. Qed.

(** The IDs in [failed] and in [sizes] are, each in the order of the
    positions, the IDs of the positions, every one of them once. *)
Lemma batch_ids start_num urls s0 k :
  (k ≤ length urls)%nat →
  let r := results (state_at start_num urls k s0) in
  (failed r).*1 `sublist_of` photo_ids start_num k
  ∧ (sizes r).*1 `sublist_of` photo_ids start_num k
  ∧ (failed r).*1 ++ (sizes r).*1 ≡ₚ photo_ids start_num k.
Proof.
  apply (batch_ind env IMAGES_DIR start_num urls s0
           (λ k s, (failed (results s)).*1 `sublist_of` photo_ids start_num k
                   ∧ (sizes (results s)).*1 `sublist_of` photo_ids start_num k
                   ∧ (failed (results s)).*1 ++ (sizes (results s)).*1
                       ≡ₚ photo_ids start_num k)); [done|].
  clear k. intros k url s Hurl _ (IHf & IHs & IHp). rewrite photo_ids_S.
  item_cases start_num k url s.
  - rewrite Hres. simpl. rewrite fmap_app. simpl. split_and!.
    + by apply sublist_inserts_r.
    + by apply sublist_app.
    + by rewrite (assoc_L (++)), IHp.
  - rewrite Hres. simpl. rewrite fmap_app. simpl. split_and!.
    + by apply sublist_app.
    + by apply sublist_inserts_r.
    + rewrite <-IHp. rewrite <-!(assoc_L (++)).
      apply Permutation_app_head, Permutation_app_comm.
Qed.

(** One progress line for each position, in the order of the positions,
    with the ID of the position and the entry [results] holds for it. *)
Lemma batch_lines start_num urls s0 k :
  (k ≤ length urls)%nat →
  let s := state_at start_num urls k s0 in
  ∃ lines,
    stdout s = stdout s0 ++ lines
    ∧ length lines = k
    ∧ ∀ i, (i < k)%nat →
        (∃ n, lines !! i = Some (line_ok (photo_id start_num i) n)
              ∧ (photo_id start_num i, n) ∈ sizes (results s))
        ∨ (∃ e, lines !! i = Some (line_failed (photo_id start_num i) e)
                ∧ (photo_id start_num i, e) ∈ failed (results s)).
Proof.
  apply (batch_ind env IMAGES_DIR start_num urls s0
    (λ k s, ∃ lines,
       stdout s = stdout s0 ++ lines
       ∧ length lines = k
       ∧ ∀ i, (i < k)%nat →
           (∃ n, lines !! i = Some (line_ok (photo_id start_num i) n)
                 ∧ (photo_id start_num i, n) ∈ sizes (results s))
           ∨ (∃ e, lines !! i = Some (line_failed (photo_id start_num i) e)
                   ∧ (photo_id start_num i, e) ∈ failed (results s)))).
  { exists []. split_and!; [by rewrite app_nil_r | done | lia]. }
  clear k. intros k url s Hurl _ (lines & Hlines & Hlen & IH).
  item_cases start_num k url s.
  - exists (lines ++ [line_ok (photo_id start_num k) (len body)]).
    rewrite Hout, Hres, Hlines, (assoc_L (++)), length_app. simpl.
    split_and!; [done | lia |]. intros i Hi.
    destruct (decide (i = k)) as [->|Hne].
    + left. exists (len body).
      rewrite lookup_app_r, Hlen, Nat.sub_diag by lia.
      split; [done | apply elem_of_snoc].
    + destruct (IH i) as [(n & Hn & Hin)|(e & He & Hin)]; [lia|left|right].
      * exists n. rewrite lookup_app_l by lia.
        split; [done | by apply elem_of_app_l].
      * exists e. by rewrite lookup_app_l by lia.
  - exists (lines ++ [line_failed (photo_id start_num k) msg]).
    rewrite Hout, Hres, Hlines, (assoc_L (++)), length_app. simpl.
    split_and!; [done | lia |]. intros i Hi.
    destruct (decide (i = k)) as [->|Hne].
    + right. exists msg.
      rewrite lookup_app_r, Hlen, Nat.sub_diag by lia.
      split; [done | apply elem_of_snoc].
    + destruct (IH i) as [(n & Hn & Hin)|(e & He & Hin)]; [lia|left|right].
      * exists n. by rewrite lookup_app_l by lia.
      * exists e. rewrite lookup_app_l by lia.
        split; [done | by apply elem_of_app_l].
Qed.

(** What the item at position [i] did stays on record to the end of the
    batch: the failure with its message, or the size and the file with the
    body. *)
Lemma batch_recorded start_num urls s0 k :
  (k ≤ length urls)%nat →
  let s := state_at start_num urls k s0 in
  ∀ i url, (i < k)%nat → urls !! i = Some url →
    let si := state_at start_num urls i s0 in
    let pid := photo_id start_num i in
    (∀ msg, eval (try_block pid (filepath pid) url) si = Raise (Exception msg) →
            (pid, msg) ∈ failed (results s))
    ∧ (∀ body, fetch_result si url = inr body →
               write_result si url (filepath pid) body = None →
               (pid, len body) ∈ sizes (results s)
               ∧ files s !! filepath pid = Some body).
Proof.
  apply (batch_ind env IMAGES_DIR start_num urls s0
    (λ k s, ∀ i url, (i < k)%nat → urls !! i = Some url →
       let si := state_at start_num urls i s0 in
       let pid := photo_id start_num i in
       (∀ msg, eval (try_block pid (filepath pid) url) si
                 = Raise (Exception msg) →
               (pid, msg) ∈ failed (results s))
       ∧ (∀ body, fetch_result si url = inr body →
                  write_result si url (filepath pid) body = None →
                  (pid, len body) ∈ sizes (results s)
                  ∧ files s !! filepath pid = Some body))).
  { intros i url Hi. lia. }
  clear k. intros k url s Hurl -> IH i url' Hi Hurl'. simpl.
  destruct (decide (i = k)) as [->|Hne].
  - assert (url' = url) as -> by congruence. split.
    + intros msg Herr.
      destruct (item_failure env IMAGES_DIR _ _ _ _ _ Herr) as (-> & _).
      simpl. apply elem_of_snoc.
    + intros body Hf Hw.
      assert (eval (try_block (photo_id start_num k)
                      (filepath (photo_id start_num k)) url)
                   (state_at start_num urls k s0) = Return tt) as Hok.
      { by rewrite eval_try_block, Hf, Hw. }
      destruct (item_success env IMAGES_DIR _ _ _ _ Hok)
        as (body' & Hf' & _ & -> & -> & _).
      assert (body' = body) as -> by congruence. simpl.
      split; [apply elem_of_snoc | by rewrite lookup_insert_eq].
  - destruct (IH i url') as [IHf IHs]; [lia | done |].
    item_cases start_num k url (state_at start_num urls k s0).
    + rewrite Hres, Hfiles. simpl. split.
      * intros msg Herr. by apply IHf.
      * intros body' Hf Hw. destruct (IHs body' Hf Hw) as [Hin Hfile].
        split; [by apply elem_of_app_l|]. rewrite lookup_insert_ne; [done|].
        intros Heq%filepath_inj%photo_id_inj. lia.
    + rewrite Hres, Hfiles. simpl. split.
      * intros msg' Herr'. by apply elem_of_app_l, IHf.
      * intros body Hf Hw. by apply IHs.
Qed.

(** Every entry of [sizes] comes from a position of the batch and gives
    the length of what the file of its ID holds. *)
Lemma batch_sizes start_num urls s0 k :
  (k ≤ length urls)%nat →
  let s := state_at start_num urls k s0 in
  ∀ pid n, (pid, n) ∈ sizes (results s) →
    ∃ i body, (i < k)%nat ∧ pid = photo_id start_num i
              ∧ files s !! filepath pid = Some body ∧ n = len body.
Proof.
  apply (batch_ind env IMAGES_DIR start_num urls s0
    (λ k s, ∀ pid n, (pid, n) ∈ sizes (results s) →
       ∃ i body, (i < k)%nat ∧ pid = photo_id start_num i
                 ∧ files s !! filepath pid = Some body ∧ n = len body)).
  { intros pid n Hin. simpl in Hin. by apply elem_of_nil in Hin. }
  clear k. intros k url s Hurl _ IH pid n.
  item_cases start_num k url s.
  - rewrite Hres, Hfiles. simpl. intros [Hin|Hin]%elem_of_app.
    + destruct (IH pid n Hin) as (i & body' & Hi & -> & Hfile & ->).
      exists i, body'. split_and!; [lia | done | | done].
      rewrite lookup_insert_ne; [done|].
      intros Heq%filepath_inj%photo_id_inj. lia.
    + apply list_elem_of_singleton in Hin as [= -> ->].
      exists k, body. split_and!; [lia | done | | done].
      by rewrite lookup_insert_eq.
  - rewrite Hres, Hfiles. simpl. intros Hin.
    destruct (IH pid n Hin) as (i & body' & Hi & -> & Hfile & ->).
    exists i, body'. split_and!; [lia | done..].
Qed.

(** The calls a batch makes: a [Request] for every URL, in the order of the
    list; a [urlopen] for every URL a [Request] could be built for, with the
    [User-Agent] header and the timeout of 30 seconds; a [write_bytes] with
    the body for every item that fetched one. *)
Lemma batch_log start_num urls s0 k :
  (k ≤ length urls)%nat →
  let s := state_at start_num urls k s0 in
  requested (log s) = requested (log s0) ++ take k urls
  ∧ opened (log s)
    = opened (log s0)
      ++ ((λ url, (mkRequest url user_agent None, 30))
            <$> filter (λ url, request_error env url = None) (take k urls))
  ∧ ∀ i url body, (i < k)%nat → urls !! i = Some url →
      fetch_result (state_at start_num urls i s0) url = inr body →
      (filepath (photo_id start_num i), body) ∈ written (log s).
Proof.
  apply (batch_ind env IMAGES_DIR start_num urls s0
    (λ k s,
       requested (log s) = requested (log s0) ++ take k urls
       ∧ opened (log s)
         = opened (log s0)
           ++ ((λ url, (mkRequest url user_agent None, 30))
                 <$> filter (λ url, request_error env url = None) (take k urls))
       ∧ ∀ i url body, (i < k)%nat → urls !! i = Some url →
           fetch_result (state_at start_num urls i s0) url = inr body →
           (filepath (photo_id start_num i), body) ∈ written (log s))).
  { simpl. rewrite !app_nil_r. split_and!; [done..|]. intros; lia. }
  clear k. intros k url s Hurl -> (IHr & IHo & IHw).
  destruct (item_log env IMAGES_DIR start_num k url
              (state_at start_num urls k s0)) as (evs & Hlog & Hreq & Hop).
  rewrite (take_S_r _ _ _ Hurl), filter_app, fmap_app. split_and!.
  - by rewrite Hlog, requested_app, IHr, Hreq, (assoc_L (++)).
  - rewrite Hlog, opened_app, IHo, Hop, <-(assoc_L (++)). f_equal. f_equal.
    rewrite filter_cons, filter_nil.
    destruct (request_error env url) eqn:E.
    + by rewrite decide_False by done.
    + by rewrite decide_True by done.
  - intros i url' body Hi Hurl' Hf.
    destruct (decide (i = k)) as [->|Hne].
    + assert (url' = url) as -> by congruence.
      rewrite (item_written env IMAGES_DIR _ _ _ _ _ Hf). apply elem_of_snoc.
    + rewrite Hlog, written_app.
      apply elem_of_app_l, (IHw i url' body); [lia | done..].
Qed.

End BatchInvariants.

(** ** The properties of the specification *)





Import Examples.



(** C5.  When the item at position [i] has fetched the body [body], that
    is, [Request], [urlopen] and [read] have returned, [write_bytes] is
    called for the file [IMAGES_DIR / "<photo_id>.jpg"] with that very
    body, the bytes as they were read.  When the write returns, the file
    holds the body at the end of the batch and [sizes] has the entry
    [(photo_id, len(body))].  And every entry [(photo_id, n)] of [sizes]
    gives the length [n] of what the file of that ID holds. *)
Theorem body_is_written
    (env : Env) (IMAGES_DIR : path) (start_num : Z) (urls : list string)
    (s0 : state) (i : nat) (url : string) (body : list byte) :
  urls !! i = Some url →
  fetch_result env (state_at env IMAGES_DIR start_num urls i s0) url
    = inr body →
  let id := format_04d (start_num + Z.of_nat i) in
  let file := IMAGES_DIR ++ [id +:+ ".jpg"] in
  ∃ r s',
    download_batch env IMAGES_DIR start_num urls s0 = (Return r, s')
    ∧ (file, body) ∈ written (log s')
    ∧ (write_result env (state_at env IMAGES_DIR start_num urls i s0)
         url file body = None →
       files s' !! file = Some body ∧ (id, len body) ∈ sizes r)
    ∧ ∀ id' n, (id', n) ∈ sizes r →
        ∃ body', files s' !! (IMAGES_DIR ++ [id' +:+ ".jpg"]) = Some body'
                 ∧ n = len body'.
Proof.
  intros Hurl Hf id file.
  pose proof (lookup_lt_Some _ _ _ Hurl) as Hi.
  eexists _, _. split; [apply download_batch_eq|]. split_and!.
  - destruct (batch_log env IMAGES_DIR start_num urls s0 (length urls))
      as (_ & _ & Hw); [done|].
    by apply (Hw i url body).
  - intros Hw.
    destruct (batch_recorded env IMAGES_DIR start_num urls s0 (length urls)
                (le_n _) i url Hi Hurl) as [_ Hs].
    destruct (Hs body Hf Hw) as [Hin Hfile]. done.
  - intros id' n Hin.
    destruct (batch_sizes env IMAGES_DIR start_num urls s0 (length urls)
                (le_n _) id' n Hin) as (j & body' & _ & _ & Hfile & ->).
    by exists body'.
Qed.

Lemma body_is_written_witness :
  two_urls !! 1%nat = Some "http://b/y.jpg"
  ∧ fetch_result env_ok (state_at env_ok images 5 two_urls 1 initial)
      "http://b/y.jpg" = inr jpeg
  ∧ ∃ r s',
      download_batch env_ok images 5 two_urls initial = (Return r, s')
      ∧ (images ++ ["0006.jpg"], jpeg) ∈ written (log s')
      ∧ (write_result env_ok (state_at env_ok images 5 two_urls 1 initial)
           "http://b/y.jpg" (images ++ ["0006.jpg"]) jpeg = None →
         files s' !! (images ++ ["0006.jpg"]) = Some jpeg
         ∧ ("0006", len jpeg) ∈ sizes r)
      ∧ ∀ id' n, (id', n) ∈ sizes r →
          ∃ body', files s' !! (images ++ [id' +:+ ".jpg"]) = Some body'
                   ∧ n = len body'.
Proof.
  split; [reflexivity|]. split; [vm_compute; reflexivity|].
  apply (body_is_written env_ok images 5 two_urls initial 1
           "http://b/y.jpg" jpeg).
  - reflexivity.
  - vm_compute. reflexivity.
Defined.



(** ** [main] *)

Section MainFacts.

Context (env : Env) (IMAGES_DIR : path) (int_of_str : string → string + Z).

Local Abbreviation main := (main env IMAGES_DIR int_of_str).
Local Abbreviation run := (run env IMAGES_DIR int_of_str).

Lemma for_each_returns {A} (body : A → M unit) (l : list A) s :
  (∀ x s, ∃ s', body x s = (Return tt, s')) →
  ∃ s', for_each body l s = (Return tt, s').
Proof.
  intros Hbody. revert s. induction l as [|x l IH]; intros s; [by eexists|].
  simpl. unfold mbind, M_bind.
  destruct (Hbody x s) as [s1 ->]. apply IH.
Qed.

(** Too few arguments: the usage line, then [sys.exit(1)]. *)
Lemma main_usage argv s :
  (length argv < 3)%nat →
  main argv s = (Raise (SystemExit 1), add_line usage s).
Proof.
  intros Hlen. unfold main.
  rewrite bool_decide_eq_true_2 by done. done.
Qed.

(** A start number that [int] rejects: the [ValueError] leaves [main]. *)
Lemma main_bad_start_num argv a msg s :
  (3 ≤ length argv)%nat → argv !! 1%nat = Some a → int_of_str a = inl msg →
  main argv s = (Raise (Exception msg), s).
Proof.
  intros Hlen Ha Hint. unfold main.
  rewrite bool_decide_eq_false_2 by lia.
  unfold mbind, M_bind, mret, M_ret. rewrite Ha. unfold int. by rewrite Hint.
Qed.

(** Otherwise [main] returns, whatever the downloads do. *)
Lemma main_returns argv a n s :
  (3 ≤ length argv)%nat → argv !! 1%nat = Some a → int_of_str a = inr n →
  ∃ s', main argv s = (Return tt, s').
Proof.
  intros Hlen Ha Hint. unfold main.
  rewrite bool_decide_eq_false_2 by lia.
  unfold mbind, M_bind, mret, M_ret. rewrite Ha. unfold int. rewrite Hint.
  unfold mret, M_ret, print, modify. rewrite download_batch_eq.
  case_bool_decide; [|by eexists].
  apply for_each_returns. intros [pid err] s1. by eexists.
Qed.

End MainFacts.

(** C7.  With fewer than two arguments after the name of the program,
    [main] prints the usage line and the process exits with status 1; no
    library call is made, no file is written and [results] is not
    touched. *)
Theorem usage_and_exit_1_on_too_few_arguments
    (env : Env) (IMAGES_DIR : path) (int_of_str : string → string + Z)
    (argv : list string) (s : state) :
  (length argv < 3)%nat →
  ∃ s',
    run env IMAGES_DIR int_of_str argv s = (1, s')
    ∧ stdout s' = stdout s ++ [usage]
    ∧ log s' = log s
    ∧ files s' = files s
    ∧ results s' = results s.
Proof.
  intros Hlen. exists (add_line usage s).
  unfold run. by rewrite main_usage.
Qed.

Lemma usage_and_exit_1_on_too_few_arguments_witness :
  (length ["download_images.py"; "5"] < 3)%nat
  ∧ ∃ s',
      run env_ok images int_decimal ["download_images.py"; "5"] initial = (1, s')
      ∧ stdout s' = stdout initial ++ [usage]
      ∧ log s' = log initial
      ∧ files s' = files initial
      ∧ results s' = results initial.
Proof.
  split; [simpl; lia|].
  apply (usage_and_exit_1_on_too_few_arguments env_ok images int_decimal
           ["download_images.py"; "5"] initial).
  simpl. lia.
Defined.


(** C9.  [:04d] pads and never cuts.  A number above 9999 gives an ID of
    more than four characters, a negative number an ID with a minus sign,
    and the ID is a string of four digits exactly when the number is
    between 0 and 9999.  So the IDs a batch records are all of four digits
    exactly when there is no URL at all or [0 <= start_num] and
    [start_num + len(urls) - 1 <= 9999]. *)
Theorem photo_id_is_padded_not_cut
    (env : Env) (IMAGES_DIR : path) (start_num : Z) (urls : list string)
    (s0 : state) :
  (∀ i : nat,
     let id := format_04d (start_num + Z.of_nat i) in
     (9999 < start_num + Z.of_nat i → (4 < String.length id)%nat)
     ∧ (start_num + Z.of_nat i < 0 → ∃ rest, id = String "-"%char rest)
     ∧ (four_digits id = true ↔ 0 ≤ start_num + Z.of_nat i ≤ 9999))
  ∧ ∃ r s',
      download_batch env IMAGES_DIR start_num urls s0 = (Return r, s')
      ∧ (Forall (λ id, four_digits id = true) ((failed r).*1 ++ (sizes r).*1)
         ↔ urls = [] ∨ (0 ≤ start_num ∧ start_num + len urls - 1 ≤ 9999)).
Proof.
  split.
  - intros i id. split_and!.
    + apply format_04d_length_big.
    + intros Hneg. unfold id, format_04d. rewrite format_0d_neg by done.
      by eexists.
    + apply format_04d_four_digits.
  - eexists _, _. split; [apply download_batch_eq|].
    destruct (batch_ids env IMAGES_DIR start_num urls s0 (length urls))
      as (_ & _ & Hp); [done|].
    rewrite Hp. unfold photo_ids, photo_id, len.
    rewrite Forall_fmap, Forall_seq. simpl.
    setoid_rewrite format_04d_four_digits. split.
    + intros H. destruct urls as [|u urls]; [by left|right].
      simpl in *. pose proof (H 0%nat). pose proof (H (length urls)). lia.
    + intros [->|[H0 H9]] j Hj; simpl in *; lia.
Qed.

(** C10.  When the fetch of an item raises, or the fetch returns a body and
    [write_bytes] raises, the item leaves the count of successes and
    [sizes] as they were and appends its one entry to [failed]. *)
Theorem item_update_is_all_or_nothing
    (env : Env) (IMAGES_DIR : path) (start_num : Z) (i : nat) (url : string)
    (s : state) (msg : string) :
  (fetch_result env s url = inl msg
   ∨ ∃ body, fetch_result env s url = inr body
             ∧ write_result env s url
                 (filepath IMAGES_DIR (photo_id start_num i)) body
               = Some msg) →
  let s' := exec (download_item env IMAGES_DIR start_num i url) s in
  success (results s') = success (results s)
  ∧ sizes (results s') = sizes (results s)
  ∧ failed (results s') = failed (results s) ++ [(photo_id start_num i, msg)].
Proof.
  intros Hraise.
  assert (eval (try_block env (photo_id start_num i)
                  (filepath IMAGES_DIR (photo_id start_num i)) url) s
          = Raise (Exception msg)) as Herr.
  { rewrite eval_try_block.
    destruct Hraise as [->|(body & -> & ->)]; done. }
  destruct (item_failure env IMAGES_DIR _ _ _ _ _ Herr) as (Hr & _).
  simpl. by rewrite Hr.
Qed.

Lemma item_update_is_all_or_nothing_witness :
  (fetch_result env_no_dir initial "http://a/x.jpg"
     = inl "[Errno 2] No such file or directory"
   ∨ ∃ body, fetch_result env_no_dir initial "http://a/x.jpg" = inr body
             ∧ write_result env_no_dir initial "http://a/x.jpg"
                 (filepath images (photo_id 5 0)) body
               = Some "[Errno 2] No such file or directory")
  ∧ let s' := exec (download_item env_no_dir images 5 0 "http://a/x.jpg")
                   initial in
    success (results s') = success (results initial)
    ∧ sizes (results s') = sizes (results initial)
    ∧ failed (results s')
      = failed (results initial)
        ++ [(photo_id 5 0, "[Errno 2] No such file or directory")].
Proof.
  assert (∃ body, fetch_result env_no_dir initial "http://a/x.jpg" = inr body
             ∧ write_result env_no_dir initial "http://a/x.jpg"
                 (filepath images (photo_id 5 0)) body
               = Some "[Errno 2] No such file or directory") as H.
  { exists jpeg. split; vm_compute; reflexivity. }
  split; [by right|].
  apply (item_update_is_all_or_nothing env_no_dir images 5 0 "http://a/x.jpg"
           initial "[Errno 2] No such file or directory").
  by right.
Defined.

(** ** The examples of the specification, run *)

(** [start_num=5] and two URLs that succeed: the files [0005.jpg] and
    [0006.jpg] are written and the count of successes is 2. *)
Example two_urls_from_5 :
  eval (download_batch env_ok images 5 two_urls) initial
    = Return (mkResults 2 [] [("0005", 6); ("0006", 6)])
  ∧ written (log (exec (download_batch env_ok images 5 two_urls) initial))
    = [(images ++ ["0005.jpg"], jpeg); (images ++ ["0006.jpg"], jpeg)].
Proof. split; vm_compute; reflexivity. Qed.

(** The second of three URLs fails: the third is still downloaded, under
    its own ID. *)
Example second_of_three_fails :
  eval (download_batch env_b_404 images 5 three_urls) initial
    = Return (mkResults 2 [("0006", "HTTP Error 404: Not Found")]
                [("0005", 6); ("0007", 6)]).
Proof. vm_compute. reflexivity. Qed.

(** No server can be reached: every download fails, the process prints
    the tally and the failures and exits with status 0. *)
Example offline_run :
  let '(status, s) :=
    run env_offline images int_decimal
        ["download_images.py"; "5"; "http://a/x.jpg"] initial in
  status = 0
  ∧ stdout s
    = ["Downloading 1 images starting from 0005...";
       "  ✗ 0005: <urlopen error [Errno 101] Network is unreachable>";
       newline +:+ "Results: 0/1 successful";
       "Failed:";
       "  0005: <urlopen error [Errno 101] Network is unreachable>"].
Proof. vm_compute. split; reflexivity. Qed.

(** A start number that is no numeral: the [ValueError] of [int] ends the
    process with status 1 before anything is downloaded. *)
Example start_num_not_a_number :
  run env_ok images int_decimal
      ["download_images.py"; "five"; "http://a/x.jpg"] initial
  = (1, initial).
Proof. vm_compute. reflexivity. Qed.

(** A large body is printed with commas. *)
Example line_ok_commas : line_ok "0005" 1234567 = "  ✓ 0005: 1,234,567 bytes".
Proof. vm_compute. reflexivity. Qed.

(** ** Further properties of the code *)

Section Outcomes.

Context (env : Env) (IMAGES_DIR : path).
Implicit Types (s : state) (url pid msg : string) (fp : path) (i k : nat)
  (urls : list string).

Local Abbreviation download_item := (download_item env IMAGES_DIR).
Local Abbreviation filepath := (filepath IMAGES_DIR).
Local Abbreviation state_at := (state_at env IMAGES_DIR).
Local Abbreviation outcome_at := (outcome_at env IMAGES_DIR).
Local Abbreviation fetched_at := (fetched_at env IMAGES_DIR).

(** An item, by its outcome. *)
Lemma item_by_outcome start_num i url s :
  let pid := photo_id start_num i in
  let s' := exec (download_item start_num i url) s in
  match item_outcome env s url (filepath pid) with
  | inl msg =>
      results s' = mkResults (success (results s))
                     (failed (results s) ++ [(pid, msg)]) (sizes (results s))
      ∧ files s' = files s
      ∧ stdout s' = stdout s ++ [line_failed pid msg]
  | inr body =>
      results s' = mkResults (success (results s) + 1) (failed (results s))
                     (sizes (results s) ++ [(pid, len body)])
      ∧ files s' = <[filepath pid := body]> (files s)
      ∧ stdout s' = stdout s ++ [line_ok pid (len body)]
  end.
Proof.
  intros pid s'.
  pose proof (eval_try_block env pid (filepath pid) url s) as Heval.
  unfold item_outcome.
  destruct (fetch_result env s url) as [msg|body] eqn:Hf.
  { by apply item_failure. }
  destruct (write_result env s url (filepath pid) body) as [msg|] eqn:Hw.
  { by apply item_failure. }
  destruct (item_success env IMAGES_DIR _ _ _ _ Heval)
    as (body' & Hf' & _ & H).
  assert (body' = body) as -> by congruence. done.
Qed.

(** No body fetched, no [write_bytes]. *)
Lemma item_not_written start_num i url s msg :
  fetch_result env s url = inl msg →
  written (log (exec (download_item start_num i url) s)) = written (log s).
Proof.
  unfold fetch_result, exec, download_item, try_except.
  rewrite try_block_eq. simpl.
  unfold except_block, failed_append, print, modify, mbind, M_bind,
    add_line, set_results, add_event, set_file.
  destruct (request_error env url); simpl.
  { intros _. by rewrite written_app, app_nil_r. }
  destruct (urlopen_result env _ _ _) as [?|resp]; simpl.
  { intros _. by rewrite !written_app, !app_nil_r. }
  destruct (resp_read resp); [|done]. simpl.
  intros _. by rewrite !written_app, !app_nil_r.
Qed.

Lemma outcome_at_lookup start_num urls s0 k url :
  urls !! k = Some url →
  outcome_at start_num urls s0 k
  = Some (item_outcome env (state_at start_num urls k s0) url
            (filepath (photo_id start_num k))).
Proof. intros H. unfold outcome_at. by rewrite H. Qed.

End Outcomes.



(** X3.  The calls of [write_bytes] a batch makes are the bodies it
    fetches, each to the file of its position, in the order of the list,
    and no others: an item that fetches no body writes nothing. *)
Theorem writes_are_the_fetched_bodies
    (env : Env) (IMAGES_DIR : path) (start_num : Z) (urls : list string)
    (s0 : state) :
  written (log (exec (download_batch env IMAGES_DIR start_num urls) s0))
  = written (log s0)
    ++ omap (λ i, (λ body, (filepath IMAGES_DIR (photo_id start_num i), body))
                    <$> fetched_at env IMAGES_DIR start_num urls s0 i)
            (seq 0 (length urls)).
Proof.
  unfold exec. rewrite download_batch_eq. simpl.
  apply (batch_ind env IMAGES_DIR start_num urls s0
    (λ k s,
       written (log s)
       = written (log s0)
         ++ omap (λ i, (λ body,
                          (filepath IMAGES_DIR (photo_id start_num i), body))
                         <$> fetched_at env IMAGES_DIR start_num urls s0 i)
                 (seq 0 k))); [by rewrite app_nil_r| |done].
  intros k url s Hurl -> IH.
  rewrite seq_S, omap_app. simpl. unfold fetched_at at 2. rewrite Hurl.
  destruct (fetch_result env _ url) as [msg|body] eqn:Hf; simpl.
  - by rewrite (item_not_written env IMAGES_DIR _ _ _ _ _ Hf), app_nil_r.
  - by rewrite (item_written env IMAGES_DIR _ _ _ _ _ Hf), IH, (assoc_L (++)).
Qed.

(** The calls of one item follow the [try] and [with] statements. *)
Lemma item_calls_spec
    (env : Env) (IMAGES_DIR : path) (start_num : Z) (i : nat) (url : string)
    (s : state) :
  ∃ evs,
    log (exec (download_item env IMAGES_DIR start_num i url) s) = log s ++ evs
    ∧ item_calls url (filepath IMAGES_DIR (photo_id start_num i)) evs.
Proof.
  unfold exec, download_item, try_except, item_calls.
  rewrite try_block_eq. simpl.
  unfold except_block, failed_append, print, modify, mbind, M_bind,
    add_line, set_results, add_event, set_file. simpl.
  destruct (request_error env url); [eexists; split; [done|]; by left|].
  destruct (urlopen_result env _ _ _) as [?|resp]; simpl.
  { eexists. rewrite <-!(assoc_L (++)). split; [done|]. right. by left. }
  destruct (resp_read resp); simpl.
  { eexists. rewrite <-!(assoc_L (++)). split; [done|].
    right. right. by left. }
  destruct (write_bytes_error env _ _ _); simpl;
    (eexists; rewrite <-!(assoc_L (++)); split; [done|];
     right; right; right; by eexists).
Qed.


(** X5.  No two positions of a batch share a file: the file of position
    [i] is the file of position [j] only when [i = j], so that no download
    of a batch overwrites another of the same batch, whatever the start
    number. *)
Theorem positions_have_their_own_files
    (IMAGES_DIR : path) (start_num : Z) (i j : nat) :
  filepath IMAGES_DIR (photo_id start_num i)
    = filepath IMAGES_DIR (photo_id start_num j)
  ↔ i = j.
Proof.
  split; [|by intros ->].
  by intros H%filepath_inj%photo_id_inj.
Qed.

(** X6.  A batch leaves every file alone that is not the file of one of
    its positions. *)
Theorem other_files_are_untouched
    (env : Env) (IMAGES_DIR : path) (start_num : Z) (urls : list string)
    (s0 : state) (p : path) :
  (∀ i, (i < length urls)%nat →
        p ≠ filepath IMAGES_DIR (photo_id start_num i)) →
  files (exec (download_batch env IMAGES_DIR start_num urls) s0) !! p
  = files s0 !! p.
Proof.
  intros Hp. unfold exec. rewrite download_batch_eq. simpl.
  apply (batch_ind env IMAGES_DIR start_num urls s0
    (λ k s, files s !! p = files s0 !! p)); [done| |done].
  intros k url s Hurl -> IH.
  pose proof (item_by_outcome env IMAGES_DIR start_num k url
                (state_at env IMAGES_DIR start_num urls k s0)) as Hitem.
  simpl in Hitem.
  destruct (item_outcome env _ url _) as [msg|body];
    destruct Hitem as (_ & -> & _); [done|].
  rewrite lookup_insert_ne; [done|].
  intros Heq. apply (Hp k); [|done]. by apply lookup_lt_Some in Hurl.
Qed.

Lemma other_files_are_untouched_witness :
  (∀ i, (i < length two_urls)%nat →
        ["notes.txt"] ≠ filepath images (photo_id 5 i))
  ∧ files (exec (download_batch env_ok images 5 two_urls) initial)
      !! ["notes.txt"]
    = files initial !! ["notes.txt"].
Proof.
  assert (∀ i, (i < length two_urls)%nat →
               ["notes.txt"] ≠ filepath images (photo_id 5 i)) as H.
  { intros i _. unfold filepath, images. discriminate. }
  split; [exact H|].
  apply (other_files_are_untouched env_ok images 5 two_urls initial
           ["notes.txt"] H).
Defined.


(** X8.  The width of a photo ID is four characters exactly from -999 to
    9999: a negative start number, which [main] accepts, gives IDs such as
    [-005], with the minus sign in the place of a zero. *)
Theorem photo_id_width (start_num : Z) (i : nat) :
  String.length (photo_id start_num i) = 4%nat
  ↔ -999 ≤ start_num + Z.of_nat i ≤ 9999.
Proof. apply format_04d_length_4. Qed.

Section MainOutput.

Context (env : Env) (IMAGES_DIR : path) (int_of_str : string → string + Z).

(** A loop of [print]s adds its lines and nothing else. *)
Lemma for_each_print {A} (body : A → M unit) (f : A → string) (l : list A) s :
  (∀ x s, body x s = (Return tt, add_line (f x) s)) →
  for_each body l s
  = (Return tt,
     mkState (results s) (log s) (files s) (stdout s ++ (f <$> l))).
Proof.
  intros Hbody. revert s. induction l as [|x l IH]; intros s; simpl.
  - rewrite app_nil_r. by destruct s.
  - unfold mbind, M_bind. rewrite Hbody, IH. simpl.
    by rewrite <-(assoc_L (++)).
Qed.

End MainOutput.



(** X10.  A start number that [int] rejects stops [main] before the batch:
    nothing is printed, no library call is made, no file is written, and
    the process exits with status 1. *)
Theorem bad_start_number_stops_before_the_batch
    (env : Env) (IMAGES_DIR : path) (int_of_str : string → string + Z)
    (argv : list string) (a msg : string) (s : state) :
  (3 ≤ length argv)%nat →
  argv !! 1%nat = Some a →
  int_of_str a = inl msg →
  run env IMAGES_DIR int_of_str argv s = (1, s).
Proof.
  intros Hlen Ha Hint. unfold run.
  by rewrite (main_bad_start_num env IMAGES_DIR int_of_str argv a msg).
Qed.

Lemma bad_start_number_stops_before_the_batch_witness :
  (3 ≤ length ["download_images.py"; "five"; "http://a/x.jpg"])%nat
  ∧ ["download_images.py"; "five"; "http://a/x.jpg"] !! 1%nat = Some "five"
  ∧ int_decimal "five"
    = inl "invalid literal for int() with base 10: 'five'"
  ∧ run env_ok images int_decimal
        ["download_images.py"; "five"; "http://a/x.jpg"] initial
    = (1, initial).
Proof.
  split; [simpl; lia|]. split; [reflexivity|].
  split; [vm_compute; reflexivity|].
  apply (bad_start_number_stops_before_the_batch env_ok images int_decimal
           ["download_images.py"; "five"; "http://a/x.jpg"] "five"
           "invalid literal for int() with base 10: 'five'" initial).
  - simpl. lia.
  - reflexivity.
  - vm_compute. reflexivity.
Defined.
